(** * tutorial-sqlite3: the person table of [main.py]

    A shallow embedding of [src/main.py].  Every function of the script
    opens a connection to [database.db], runs one SQL statement through a
    cursor, commits when it has written, and closes.  The script is
    embedded in an exception-and-state monad; the sqlite3 engine it talks
    to is embedded as the small set of statements the script sends, with
    their documented meaning (ORDER BY under the BINARY collation, [=] on
    text, LIKE with the wildcards [%] and [_] and ASCII case folding). *)

From Stdlib Require Import List String Ascii Bool Arith NArith Lia.
From Stdlib Require Import Sorted Permutation.
Import ListNotations.

Local Open Scope string_scope.
Local Open Scope list_scope.

(* ================================================================= *)
(** ** Data *)

(** A Python tuple of text values, as passed to and returned by the
    DB-API. *)
Definition tuple := list string.

(** A stored row of [person]: the six TEXT columns, in the order of the
    CREATE TABLE statement. *)
Record row : Type := Person {
  username : string;
  email : string;
  firstname : string;
  lastname : string;
  biography : string;
  occupation : string
}.

(** [SELECT *] yields the columns in declaration order. *)
Definition columns (r : row) : tuple :=
  [username r; email r; firstname r; lastname r; biography r; occupation r].

(** Binding a parameter tuple to [VALUES (?,?,?,?,?,?)]: exactly six
    values are required. *)
Definition bind6 (t : tuple) : option row :=
  match t with
  | [u; e; f; l; b; o] => Some (Person u e f l b o)
  | _ => None
  end.

(** The content of [database.db] as far as the script can observe it:
    [None] when there is no table [person], otherwise its rows in rowid
    (insertion) order. *)
Abbreviation database := (option (list row)) (only parsing).

(** The world outside the script: the database file, and whether the
    engine can serve it at all (an unreadable file, a full disk). *)
Record world : Type := World {
  faulty : bool;
  stored : database
}.

Definition healthy (d : database) : world := World false d.

(** The exceptions sqlite3 raises to the script. *)
Inductive exception : Type :=
| OperationalError
| ProgrammingError.

Inductive outcome (A : Type) : Type :=
| Return (a : A)
| Raise (e : exception).
Arguments Return {A} a.
Arguments Raise {A} e.

(* ================================================================= *)
(** ** The monad of the script *)

Definition M (S A : Type) : Type := S -> outcome A * S.

Definition ret {S A} (a : A) : M S A := fun s => (Return a, s).

Definition raise {S A} (e : exception) : M S A := fun s => (Raise e, s).

Definition bind {S A B} (m : M S A) (k : A -> M S B) : M S B :=
  fun s =>
    match m s with
    | (Return a, s') => k a s'
    | (Raise e, s') => (Raise e, s')
    end.

(** [try: m  except: h] with a bare [except], which catches everything. *)
Definition try_except {S A} (m : M S A) (h : M S A) : M S A :=
  fun s =>
    match m s with
    | (Return a, s') => (Return a, s')
    | (Raise _, s') => h s'
    end.

Declare Scope py_scope.
Delimit Scope py_scope with py.
Notation "x <- m ;; k" := (bind m (fun x => k))
  (at level 61, m at next level, right associativity) : py_scope.
Notation "m ;; k" := (bind m (fun _ => k))
  (at level 61, right associativity) : py_scope.
Local Open Scope py_scope.

(* ================================================================= *)
(** ** Text comparison in the engine *)

(** ORDER BY under the default BINARY collation compares the texts
    character code by character code, a proper prefix first: this is
    [String.leb]. *)

Fixpoint sort_insert (key : row -> string) (r : row) (rs : list row)
  : list row :=
  match rs with
  | [] => [r]
  | r' :: rs' =>
      if (key r' <=? key r)%string
      then r' :: sort_insert key r rs'
      else r :: r' :: rs'
  end.

(** [ORDER BY key]: rows come out non-decreasing in [key].  The engine
    does not promise an order among rows with equal keys; the model keeps
    them in table order. *)
Definition order_by (key : row -> string) (rs : list row) : list row :=
  fold_left (fun acc r => sort_insert key r acc) rs [].

(** ASCII lower case, the only folding LIKE does by default. *)
Definition tolower (c : ascii) : ascii :=
  let n := nat_of_ascii c in
  if (65 <=? n)%nat && (n <=? 90)%nat then ascii_of_nat (n + 32) else c.

Definition eqb_nocase (c d : ascii) : bool :=
  Ascii.eqb (tolower c) (tolower d).

Definition percent : ascii := "%"%char.
Definition underscore : ascii := "_"%char.

(** [like p s] is [s LIKE p]: [%] matches any run of characters, [_]
    any one character, every other character itself up to ASCII case. *)
Fixpoint like (p : string) : string -> bool :=
  match p with
  | EmptyString =>
      fun s => match s with EmptyString => true | String _ _ => false end
  | String c p' =>
      if Ascii.eqb c percent then
        fix star (s : string) : bool :=
          like p' s
          || match s with
             | EmptyString => false
             | String _ s' => star s'
             end
      else if Ascii.eqb c underscore then
        fun s =>
          match s with
          | EmptyString => false
          | String _ s' => like p' s'
          end
      else
        fun s =>
          match s with
          | EmptyString => false
          | String d s' => eqb_nocase c d && like p' s'
          end
  end.

(* ================================================================= *)
(** ** The sqlite3 module, as the script uses it *)

(** The statements the script sends. *)
Inductive statement : Type :=
| CREATE_TABLE_person
    (* CREATE TABLE person (username TEXT, email TEXT, firstname TEXT,
       lastname TEXT, biography TEXT, occupation TEXT) *)
| DROP_TABLE_IF_EXISTS_person
| INSERT_INTO_person
    (* INSERT INTO person VALUES (?,?,?,?,?,?) *)
| SELECT_all_ORDER_BY_lastname
    (* SELECT * FROM person ORDER BY lastname *)
| SELECT_all_WHERE_lastname_eq
    (* SELECT * FROM person WHERE lastname=? *)
| SELECT_all_WHERE_biography_LIKE
    (* SELECT * FROM person WHERE biography LIKE ? *)
| SELECT_names_WHERE_lastname_LIKE_ORDER_BY_firstname.
    (* SELECT firstname, lastname FROM person WHERE lastname LIKE ?
       ORDER BY firstname *)

(** What a connection holds between [connect] and [close]. *)
Record session : Type := Session {
  disk : world;
  txn : option database;    (* the table as seen inside an open transaction *)
  results : list tuple      (* rows of the cursor not fetched yet *)
}.

Inductive connection : Type := Connection.
Inductive cursor_handle : Type := Cursor.

Definition sql := M session.

Definition view (s : session) : database :=
  match txn s with
  | Some d => d
  | None => stored (disk s)
  end.

(** [sqlite3.connect(path)]. *)
Definition connect (path : string) : sql connection :=
  fun s =>
    if faulty (disk s) then (Raise OperationalError, s)
    else (Return Connection, s).

(** [con.cursor()]. *)
Definition cursor (con : connection) : sql cursor_handle := ret Cursor.

(** A schema statement runs in autocommit unless a transaction is open. *)
Definition write_ddl (d : database) : sql unit :=
  fun s =>
    match txn s with
    | Some _ => (Return tt, Session (disk s) (Some d) [])
    | None => (Return tt, Session (World (faulty (disk s)) d) None [])
    end.

(** An INSERT implicitly opens a transaction; its rows reach the file at
    [commit]. *)
Definition write_dml (d : database) : sql unit :=
  fun s => (Return tt, Session (disk s) (Some d) []).

Definition yield (rows : list tuple) : sql unit :=
  fun s => (Return tt, Session (disk s) (txn s) rows).

Definition the_table : sql (list row) :=
  fun s =>
    match view s with
    | Some rs => (Return rs, s)
    | None => (Raise OperationalError, s)    (* no such table: person *)
    end.

Definition names (r : row) : tuple := [firstname r; lastname r].

(** [cur.execute(stmt, params)]. *)
Definition execute (cur : cursor_handle) (stmt : statement) (params : tuple)
  : sql unit :=
  match stmt with
  | CREATE_TABLE_person =>
      fun s =>
        match view s with
        | Some _ => (Raise OperationalError, s) (* table person already exists *)
        | None => write_ddl (Some []) s
        end
  | DROP_TABLE_IF_EXISTS_person => write_ddl None
  | INSERT_INTO_person =>
      rs <- the_table ;;
      match bind6 params with
      | Some r => write_dml (Some (rs ++ [r]))
      | None => raise ProgrammingError       (* wrong number of bindings *)
      end
  | SELECT_all_ORDER_BY_lastname =>
      rs <- the_table ;;
      match params with
      | [] => yield (map columns (order_by lastname rs))
      | _ => raise ProgrammingError
      end
  | SELECT_all_WHERE_lastname_eq =>
      rs <- the_table ;;
      match params with
      | [x] => yield (map columns
                        (filter (fun r => String.eqb (lastname r) x) rs))
      | _ => raise ProgrammingError
      end
  | SELECT_all_WHERE_biography_LIKE =>
      rs <- the_table ;;
      match params with
      | [p] => yield (map columns (filter (fun r => like p (biography r)) rs))
      | _ => raise ProgrammingError
      end
  | SELECT_names_WHERE_lastname_LIKE_ORDER_BY_firstname =>
      rs <- the_table ;;
      match params with
      | [p] => yield (map names
                        (order_by firstname
                           (filter (fun r => like p (lastname r)) rs)))
      | _ => raise ProgrammingError
      end
  end.

(** [cur.executemany(stmt, seq)]: the statement once per parameter tuple. *)
Fixpoint executemany (cur : cursor_handle) (stmt : statement)
  (seq : list tuple) : sql unit :=
  match seq with
  | [] => ret tt
  | params :: seq' => execute cur stmt params ;; executemany cur stmt seq'
  end.

(** [cur.fetchone()]: the next row, or [None]. *)
Definition fetchone (cur : cursor_handle) : sql (option tuple) :=
  fun s =>
    match results s with
    | [] => (Return None, s)
    | t :: ts => (Return (Some t), Session (disk s) (txn s) ts)
    end.

(** [cur.fetchall()]: all rows left. *)
Definition fetchall (cur : cursor_handle) : sql (list tuple) :=
  fun s => (Return (results s), Session (disk s) (txn s) []).

(** [for row in cur: acc = body acc row]. *)
Definition for_each {A} (cur : cursor_handle) (body : A -> tuple -> A)
  (acc : A) : sql A :=
  rows <- fetchall cur ;; ret (fold_left body rows acc).

(** [con.commit()]. *)
Definition commit (con : connection) : sql unit :=
  fun s =>
    match txn s with
    | Some d => (Return tt, Session (World (faulty (disk s)) d) None (results s))
    | None => (Return tt, s)
    end.

(** [con.close()]: whatever was not committed is rolled back. *)
Definition close (con : connection) : sql unit :=
  fun s => (Return tt, Session (disk s) None []).

(** A function of the script runs its body on a connection of its own;
    when the body returns or raises, the connection is gone and only the
    file remains. *)
Definition proc := M world.

Definition def {A} (body : sql A) : proc A :=
  fun w =>
    let (r, s) := body (Session w None []) in (r, disk s).

(* ================================================================= *)
(** ** The script *)

Definition create_table : proc bool :=
  def (try_except
         (con <- connect "database.db" ;;
          cur <- cursor con ;;
          execute cur CREATE_TABLE_person [] ;;
          commit con ;;
          close con ;;
          ret true)
         (ret false)).

Definition drop_table : proc unit :=
  def (con <- connect "database.db" ;;
       cur <- cursor con ;;
       execute cur DROP_TABLE_IF_EXISTS_person [] ;;
       commit con ;;
       close con).

Definition insert_table (person : tuple) : proc unit :=
  def (con <- connect "database.db" ;;
       cur <- cursor con ;;
       execute cur INSERT_INTO_person person ;;
       commit con ;;
       close con).

Definition people : list tuple :=
  [ ["Janey"; "JaneDoe@gmail.com"; "Jane"; "Doe";
     "Jane Doe is a Software Engineer."; "Software Engineer"];
    ["Joey"; "JoeShmo@gmail.com"; "Joseph"; "Shmo";
     "Joseph Shmo is a Data Scientist."; "Data Scientist"];
    ["Jonny"; "JohnSmith@gmail.com"; "John"; "Smith";
     "John Doe is a Database Administrator."; "Database Administrator"] ].

Definition populate_table : proc unit :=
  def (con <- connect "database.db" ;;
       cur <- cursor con ;;
       executemany cur INSERT_INTO_person people ;;
       commit con ;;
       close con).

Definition fetch_table : proc (list tuple) :=
  def (let values := [] in
       con <- connect "database.db" ;;
       cur <- cursor con ;;
       execute cur SELECT_all_ORDER_BY_lastname [] ;;
       values <- for_each cur (fun values row => values ++ [row]) values ;;
       close con ;;
       ret values).

Definition search_lastname_exact (lastname : string)
  : proc (list (option tuple)) :=
  def (let value := [] in
       let search := [lastname] in
       con <- connect "database.db" ;;
       cur <- cursor con ;;
       execute cur SELECT_all_WHERE_lastname_eq search ;;
       found <- fetchone cur ;;
       let value := value ++ [found] in
       close con ;;
       ret value).

Definition search_biography_partial (bio : string) : proc (option tuple) :=
  def (let search := [("%" ++ bio ++ "%")%string] in
       con <- connect "database.db" ;;
       cur <- cursor con ;;
       execute cur SELECT_all_WHERE_biography_LIKE search ;;
       value <- fetchone cur ;;
       close con ;;
       ret value).

Definition search_lastname_partial_fullname (find : string)
  : proc (list tuple) :=
  def (let search := [("%" ++ find ++ "%")%string] in
       con <- connect "database.db" ;;
       cur <- cursor con ;;
       execute cur SELECT_names_WHERE_lastname_LIKE_ORDER_BY_firstname search ;;
       values <- fetchall cur ;;
       close con ;;
       ret values).

(** What [main] prints after the table has been created. *)
Record printed : Type := Printed {
  table_rows : list tuple;
  lastname_match : list (option tuple);
  biography_match : option tuple;
  name_matches : list tuple
}.

Definition neo : tuple :=
  ["Neo"; "ThomasAnderson@gmail.com"; "Thomas"; "Anderson";
   "Thomas Anderson is a Computer Programmer."; "Computer Programmer"].

Definition main : proc (option printed) :=
  drop_table ;;
  created <- create_table ;;
  if created : bool then
    let person := neo in
    insert_table person ;;
    populate_table ;;
    items <- fetch_table ;;
    sle <- search_lastname_exact "Shmo" ;;
    sbp <- search_biography_partial "eng" ;;
    let search := "s" in
    items' <- search_lastname_partial_fullname search ;;
    ret (Some (Printed items sle sbp items'))
  else ret None.

(* ================================================================= *)
(** ** Notions the statements below are written in *)

(** Two rows are in order on [key]. *)
Definition le_key (key : row -> string) (r r' : row) : Prop :=
  (key r <=? key r')%string = true.

(** Column [i] of a returned tuple. *)
Definition column (i : nat) (t : tuple) : string := nth i t EmptyString.

(** Two returned tuples are in order on column [i]. *)
Definition by_column (i : nat) (a b : tuple) : Prop :=
  (column i a <=? column i b)%string = true.

(** A keyword without the two wildcard characters. *)
Fixpoint plain (p : string) : bool :=
  match p with
  | EmptyString => true
  | String c p' =>
      negb (Ascii.eqb c percent) && negb (Ascii.eqb c underscore) && plain p'
  end.

Fixpoint lower (s : string) : string :=
  match s with
  | EmptyString => EmptyString
  | String c s' => String (tolower c) (lower s')
  end.


Fixpoint iprefixb (p s : string) : bool :=
  match p, s with
  | EmptyString, _ => true
  | String _ _, EmptyString => false
  | String c p', String d s' => eqb_nocase c d && iprefixb p' s'
  end.

Fixpoint icontainsb (p s : string) : bool :=
  iprefixb p s
  || match s with
     | EmptyString => false
     | String _ s' => icontainsb p s'
     end.

(** The driver's steps up to the first print, with what [create_table]
    answered. *)
Definition scenario : proc (bool * list tuple) :=
  drop_table ;;
  created <- create_table ;;
  insert_table neo ;;
  populate_table ;;
  items <- fetch_table ;;
  ret (created, items).

(** The operation as the specification words it: the batch to insert is
    the caller's. *)
Definition InsertMany (seq : list tuple) : proc unit :=
  def (con <- connect "database.db" ;;
       cur <- cursor con ;;
       executemany cur INSERT_INTO_person seq ;;
       commit con ;;
       close con).

(** Equality of returned tuples is decidable; used to count copies. *)
Definition tuple_eq_dec : forall a b : tuple, {a = b} + {a <> b} :=
  list_eq_dec string_dec.

(* ================================================================= *)
(** ** The text order *)

Lemma ascii_compare_refl (c : ascii) : Ascii.compare c c = Eq.
Proof. unfold Ascii.compare. apply N.compare_refl. Qed.

Lemma ascii_compare_trans (c : comparison) (x y z : ascii) :
  Ascii.compare x y = c -> Ascii.compare y z = c -> Ascii.compare x z = c.
Proof.
  unfold Ascii.compare. destruct c; intros H1 H2.
  - apply N.compare_eq_iff in H1, H2. apply N.compare_eq_iff. congruence.
  - rewrite N.compare_lt_iff in *. lia.
  - rewrite N.compare_gt_iff in *. lia.
Qed.

Lemma string_compare_lt_trans (a b c : string) :
  String.compare a b = Lt -> String.compare b c = Lt ->
  String.compare a c = Lt.
Proof.
  revert b c. induction a as [|x a IH]; intros [|y b] [|z c]; simpl;
    try congruence.
  destruct (Ascii.compare x y) eqn:Hxy; try discriminate;
    destruct (Ascii.compare y z) eqn:Hyz; try discriminate; intros H1 H2.
  - rewrite (ascii_compare_trans Eq x y z Hxy Hyz). eauto.
  - apply Ascii.compare_eq_iff in Hxy. subst y. now rewrite Hyz.
  - apply Ascii.compare_eq_iff in Hyz. subst z. now rewrite Hxy.
  - now rewrite (ascii_compare_trans Lt x y z Hxy Hyz).
Qed.

Lemma string_leb_refl (a : string) : (a <=? a)%string = true.
Proof.
  unfold String.leb.
  replace (String.compare a a) with Eq; [reflexivity|].
  induction a as [|x a IH]; simpl; [reflexivity|].
  now rewrite ascii_compare_refl.
Qed.

Lemma string_leb_trans (a b c : string) :
  (a <=? b)%string = true -> (b <=? c)%string = true ->
  (a <=? c)%string = true.
Proof.
  unfold String.leb.
  destruct (String.compare a b) eqn:Hab; try discriminate;
    destruct (String.compare b c) eqn:Hbc; try discriminate; intros _ _.
  - apply String.compare_eq_iff in Hab. subst b. now rewrite Hbc.
  - apply String.compare_eq_iff in Hab. subst b. now rewrite Hbc.
  - apply String.compare_eq_iff in Hbc. subst c. now rewrite Hab.
  - now rewrite (string_compare_lt_trans a b c Hab Hbc).
Qed.

(* ================================================================= *)
(** ** ORDER BY sorts and keeps every row *)

Section OrderBy.

Variable key : row -> string.

Lemma sort_insert_perm (r : row) (rs : list row) :
  Permutation (r :: rs) (sort_insert key r rs).
Proof.
  induction rs as [|r' rs IH]; simpl; [reflexivity|].
  destruct (key r' <=? key r)%string; [|reflexivity].
  rewrite perm_swap. now apply perm_skip.
Qed.

Lemma sort_insert_sorted (r : row) (rs : list row) :
  StronglySorted (le_key key) rs ->
  StronglySorted (le_key key) (sort_insert key r rs).
Proof.
  induction 1 as [|r' rs Hrs IH Hall]; simpl.
  - repeat constructor.
  - destruct (key r' <=? key r)%string eqn:Hle.
    + constructor; [exact IH|].
      apply (Permutation_Forall (sort_insert_perm r rs)).
      constructor; assumption.
    + assert (Hr : le_key key r r').
      { destruct (String.leb_total (key r) (key r')) as [H|H];
          [exact H | congruence]. }
      constructor; [constructor; assumption|].
      constructor; [exact Hr|].
      eapply Forall_impl; [|exact Hall].
      intros x Hx. exact (string_leb_trans _ _ _ Hr Hx).
Qed.

Lemma order_by_acc_perm (rs acc : list row) :
  Permutation (acc ++ rs)
    (fold_left (fun acc r => sort_insert key r acc) rs acc).
Proof.
  revert acc. induction rs as [|r rs IH]; intros acc; simpl.
  - now rewrite app_nil_r.
  - rewrite <- IH, <- sort_insert_perm.
    now rewrite <- Permutation_middle.
Qed.

Lemma order_by_acc_sorted (rs acc : list row) :
  StronglySorted (le_key key) acc ->
  StronglySorted (le_key key)
    (fold_left (fun acc r => sort_insert key r acc) rs acc).
Proof.
  revert acc. induction rs as [|r rs IH]; intros acc Hacc; simpl.
  - exact Hacc.
  - apply IH, sort_insert_sorted, Hacc.
Qed.

Lemma order_by_perm (rs : list row) : Permutation rs (order_by key rs).
Proof. exact (order_by_acc_perm rs []). Qed.

Lemma order_by_sorted (rs : list row) :
  StronglySorted (le_key key) (order_by key rs).
Proof. apply order_by_acc_sorted. constructor. Qed.

End OrderBy.

Lemma StronglySorted_map {A B} (R : B -> B -> Prop) (f : A -> B)
  (l : list A) :
  StronglySorted (fun x y => R (f x) (f y)) l -> StronglySorted R (map f l).
Proof.
  induction 1 as [|x l Hl IH Hall]; simpl; constructor.
  - exact IH.
  - rewrite Forall_map. exact Hall.
Qed.

(* ================================================================= *)
(** ** What each function of the script computes *)

Lemma fold_left_append {A} (l acc : list A) :
  fold_left (fun values row => values ++ [row]) l acc = acc ++ l.
Proof.
  revert acc. induction l as [|x l IH]; intros acc; simpl.
  - now rewrite app_nil_r.
  - now rewrite IH, <- app_assoc.
Qed.

Lemma fetch_table_run (rs : list row) :
  fetch_table (healthy (Some rs))
  = (Return (map columns (order_by lastname rs)), healthy (Some rs)).
Proof.
  unfold fetch_table, def, for_each, bind, healthy. simpl.
  now rewrite fold_left_append.
Qed.

Lemma insert_table_run (u e f l b o : string) (rs : list row) :
  insert_table [u; e; f; l; b; o] (healthy (Some rs))
  = (Return tt, healthy (Some (rs ++ [Person u e f l b o]))).
Proof. reflexivity. Qed.

Lemma search_lastname_exact_run (x : string) (rs : list row) :
  search_lastname_exact x (healthy (Some rs))
  = (Return
       [hd_error (map columns
                    (filter (fun r => String.eqb (lastname r) x) rs))],
     healthy (Some rs)).
Proof.
  unfold search_lastname_exact, def, bind, healthy. simpl.
  now destruct (map columns _).
Qed.

Lemma search_biography_partial_run (bio : string) (rs : list row) :
  search_biography_partial bio (healthy (Some rs))
  = (Return
       (hd_error
          (map columns
             (filter (fun r => like ("%" ++ bio ++ "%")%string (biography r))
                rs))),
     healthy (Some rs)).
Proof.
  unfold search_biography_partial, def, bind, healthy. simpl.
  now destruct (map columns _).
Qed.

Lemma search_lastname_partial_fullname_run (find : string) (rs : list row) :
  search_lastname_partial_fullname find (healthy (Some rs))
  = (Return
       (map names
          (order_by firstname
             (filter (fun r => like ("%" ++ find ++ "%")%string (lastname r))
                rs))),
     healthy (Some rs)).
Proof. reflexivity. Qed.

(** The first row a scan finds, and why it is the first. *)
Lemma first_match (f : row -> bool) (rs : list row) :
  match hd_error (map columns (filter f rs)) with
  | Some t =>
      exists pre r post,
        rs = pre ++ r :: post /\ t = columns r /\ f r = true
        /\ Forall (fun r' => f r' = false) pre
  | None => Forall (fun r => f r = false) rs
  end.
Proof.
  induction rs as [|r rs IH]; simpl; [constructor|].
  destruct (f r) eqn:Hr; simpl.
  - exists [], r, rs. repeat split; auto.
  - destruct (hd_error (map columns (filter f rs))) as [t|].
    + destruct IH as (pre & r' & post & -> & Ht & Hf & Hpre).
      exists (r :: pre), r', post. repeat split; auto.
    + constructor; assumption.
Qed.

(* ================================================================= *)
(** ** LIKE with a wrapped keyword *)

Lemma like_percent (q s : string) :
  like (String percent q) s
  = like q s
    || match s with
       | EmptyString => false
       | String _ s' => like (String percent q) s'
       end.
Proof. destruct s; reflexivity. Qed.

Lemma like_any (s : string) : like (String percent EmptyString) s = true.
Proof.
  induction s as [|c s IH]; [reflexivity|].
  rewrite like_percent, IH. apply orb_true_r.
Qed.

Lemma like_plain_prefix (p s : string) :
  plain p = true -> like (p ++ "%")%string s = iprefixb p s.
Proof.
  revert s. induction p as [|c p IH]; intros s Hp.
  - apply like_any.
  - simpl in Hp. apply andb_prop in Hp as [Hc Hp].
    apply andb_prop in Hc as [Hc1 Hc2].
    apply negb_true_iff in Hc1, Hc2.
    simpl. rewrite Hc1, Hc2.
    destruct s as [|d s]; [reflexivity|].
    now rewrite IH.
Qed.

Lemma like_wrapped (p s : string) :
  plain p = true -> like ("%" ++ p ++ "%")%string s = icontainsb p s.
Proof.
  intros Hp. change ("%" ++ p ++ "%")%string with (String percent (p ++ "%")).
  induction s as [|d s IH]; rewrite like_percent, like_plain_prefix by exact Hp.
  - reflexivity.
  - now rewrite IH.
Qed.





(* ================================================================= *)
(** ** The driver *)

(** C1: in the driver, after [drop_table], [create_table] answering
    [true], [insert_table] of the Neo/Anderson tuple and
    [populate_table], [fetch_table] returns exactly four rows, in the
    order Anderson, Doe, Shmo, Smith; this is what [main] prints as the
    table, whatever the file held before. *)
Theorem driver_fetches_four_rows (d : database) :
  exists (items : list tuple) (w : world),
    scenario (healthy d) = (Return (true, items), w)
    /\ items = neo :: people
    /\ List.length items = 4
    /\ map (column 3) items = ["Anderson"; "Doe"; "Shmo"; "Smith"]
    /\ exists p, main (healthy d) = (Return (Some p), w)
                 /\ table_rows p = items.
Proof.
  exists (neo :: people).
  destruct d as [rs|]; eexists; (split; [vm_compute; reflexivity|]);
    repeat split; eexists; split; vm_compute; reflexivity.
Qed.

(* ================================================================= *)
(** ** Batch insertion *)

Lemma executemany_insert (seq : list tuple) (rows rs : list row)
  (w : world) :
  map bind6 seq = map Some rows ->
  executemany Cursor INSERT_INTO_person seq (Session w (Some (Some rs)) [])
  = (Return tt, Session w (Some (Some (rs ++ rows))) []).
Proof.
  revert rows rs. induction seq as [|t seq IH]; intros [|r rows] rs H;
    try discriminate H.
  - simpl. now rewrite app_nil_r.
  - injection H as Ht Hseq. simpl. unfold bind at 1. simpl.
    unfold bind at 1. simpl. rewrite Ht. simpl.
    rewrite (IH rows (rs ++ [r]) Hseq). now rewrite <- app_assoc.
Qed.

(** The operation of the specification does append the caller's rows. *)
Lemma InsertMany_appends (seq : list tuple) (rows rs : list row) :
  map bind6 seq = map Some rows ->
  InsertMany seq (healthy (Some rs))
  = (Return tt, healthy (Some (rs ++ rows))).
Proof.
  destruct seq as [|t seq]; destruct rows as [|r rows]; intros H;
    try discriminate H.
  - unfold InsertMany, def, bind, healthy. simpl. now rewrite app_nil_r.
  - injection H as Ht Hseq.
    unfold InsertMany, def, healthy. simpl.
    unfold bind at 1. simpl. unfold bind at 1. simpl.
    unfold bind at 1. simpl. unfold bind at 1. simpl.
    unfold bind at 1. simpl. rewrite Ht. simpl.
    rewrite (executemany_insert seq rows (rs ++ [r]) _ Hseq). simpl.
    now rewrite <- app_assoc.
Qed.

(** C2, as stated, fails: [populate_table] has no parameter, so for the
    one-row batch holding the Neo tuple it does not append that row to an
    empty table; it appends its own three. *)
Lemma populate_table_not_the_callers_batch :
  snd (InsertMany [neo] (healthy (Some [])))
  = healthy (Some [Person "Neo" "ThomasAnderson@gmail.com" "Thomas"
                     "Anderson" "Thomas Anderson is a Computer Programmer."
                     "Computer Programmer"])
  /\ snd (populate_table (healthy (Some [])))
     <> snd (InsertMany [neo] (healthy (Some []))).
Proof. split; [reflexivity | vm_compute; discriminate]. Qed.

(** C2, amended: [populate_table] takes no argument; on an existing
    table it appends, in one batch and in this order, the three rows of
    its own list [people] (Janey/Doe, Joey/Shmo, Jonny/Smith), after the
    rows already stored. *)
Theorem populate_table_appends_people (rs : list row) :
  exists batch : list row,
    map columns batch = people
    /\ populate_table (healthy (Some rs))
       = (Return tt, healthy (Some (rs ++ batch)))
    /\ populate_table (healthy (Some rs)) = InsertMany people (healthy (Some rs)).
Proof.
  exists (map (fun t => Person (column 0 t) (column 1 t) (column 2 t)
                          (column 3 t) (column 4 t) (column 5 t)) people).
  split; [reflexivity|]. split; [|reflexivity].
  unfold populate_table, def, bind, healthy. simpl.
  now rewrite <- !app_assoc.
Qed.

(* ================================================================= *)
(** ** Exact search *)

(** C3: [search_lastname_exact] compares [lastname] with the argument by
    equality of texts (so letter case counts) and returns a list of
    exactly one element: the first stored row whose lastname equals the
    argument, or [None] when no stored row has that lastname. *)
Theorem search_lastname_exact_first (x : string) (rs : list row) :
  exists found : option tuple,
    search_lastname_exact x (healthy (Some rs))
    = (Return [found], healthy (Some rs))
    /\ match found with
       | Some t =>
           exists pre r post,
             rs = pre ++ r :: post /\ t = columns r /\ lastname r = x
             /\ Forall (fun r' => lastname r' <> x) pre
       | None => Forall (fun r => lastname r <> x) rs
       end.
Proof.
  rewrite search_lastname_exact_run. eexists. split; [reflexivity|].
  pose proof (first_match (fun r => String.eqb (lastname r) x) rs) as H.
  destruct (hd_error _) as [t|].
  - destruct H as (pre & r & post & Hrs & Ht & Hr & Hpre).
    exists pre, r, post. repeat split; auto.
    + now apply String.eqb_eq.
    + eapply Forall_impl; [|exact Hpre].
      intros r'. apply String.eqb_neq.
  - eapply Forall_impl; [|exact H]. intros r. apply String.eqb_neq.
Qed.

(** The two searches of the specification's example: lower-case "shmo"
    finds nothing among the driver's rows, "Shmo" finds Joey's row. *)
Example search_shmo :
  let w := healthy (Some (map (fun t => Person (column 0 t) (column 1 t)
                                 (column 2 t) (column 3 t) (column 4 t)
                                 (column 5 t)) (neo :: people))) in
  fst (search_lastname_exact "shmo" w) = Return [None]
  /\ fst (search_lastname_exact "Shmo" w) = Return [Some (nth 1 people [])].
Proof. split; reflexivity. Qed.

(* ================================================================= *)
(** ** Fetching the table *)

(** C4, as stated, fails: in the state without a table [person] (the
    state [drop_table] leaves) [fetch_table] returns nothing, it raises
    the engine's error. *)
Lemma fetch_table_without_table :
  fetch_table (healthy None) = (Raise OperationalError, healthy None)
  /\ ~ exists values, fst (fetch_table (healthy None)) = Return values.
Proof.
  split; [reflexivity|]. intros [values H]. discriminate H.
Qed.

(** C4, amended: for every state in which the table [person] exists,
    [fetch_table] returns every stored row, each once per stored copy,
    sorted non-decreasing by lastname under the engine's default text
    comparison; it returns the empty list when the table is empty. *)
Theorem fetch_table_sorted (rs : list row) :
  (exists values : list tuple,
     fetch_table (healthy (Some rs)) = (Return values, healthy (Some rs))
     /\ Permutation (map columns rs) values
     /\ StronglySorted (by_column 3) values)
  /\ fetch_table (healthy (Some [])) = (Return [], healthy (Some [])).
Proof.
  split; [|reflexivity].
  rewrite fetch_table_run. eexists. split; [reflexivity|]. split.
  - apply Permutation_map, order_by_perm.
  - apply StronglySorted_map.
    exact (order_by_sorted lastname rs).
Qed.

(** C9: a tuple of six texts inserted with [insert_table] into an
    existing table comes back from [fetch_table] as a row equal to it,
    field for field in the column order username, email, firstname,
    lastname, biography, occupation. *)
Theorem insert_then_fetch_roundtrip (u e f l b o : string) (rs : list row) :
  exists (w : world) (values : list tuple),
    insert_table [u; e; f; l; b; o] (healthy (Some rs)) = (Return tt, w)
    /\ fetch_table w = (Return values, w)
    /\ In [u; e; f; l; b; o] values
    /\ List.length values = S (List.length rs).
Proof.
  rewrite insert_table_run. eexists. eexists. split; [reflexivity|].
  rewrite fetch_table_run. split; [reflexivity|].
  pose proof (order_by_perm lastname (rs ++ [Person u e f l b o])) as Hp.
  split.
  - change [u; e; f; l; b; o] with (columns (Person u e f l b o)).
    apply in_map.
    apply (Permutation_in _ Hp), in_or_app. right. now left.
  - rewrite length_map, <- (Permutation_length Hp), length_app. simpl. lia.
Qed.

(* ================================================================= *)
(** ** Partial searches *)




(** The specification's example: "ENG" finds the biography with
    "Engineer". *)
Example search_ENG :
  fst (search_biography_partial "ENG"
         (healthy (Some [Person "Joey" "JoeShmo@gmail.com" "Joseph" "Shmo"
                           "Joseph Shmo is a Data Scientist." "Data Scientist";
                         Person "Janey" "JaneDoe@gmail.com" "Jane" "Doe"
                           "Jane Doe is a Software Engineer."
                           "Software Engineer"])))
  = Return (Some ["Janey"; "JaneDoe@gmail.com"; "Jane"; "Doe";
                  "Jane Doe is a Software Engineer."; "Software Engineer"]).
Proof. reflexivity. Qed.




(* ================================================================= *)
(** ** Creating and dropping the table *)

(** C7: [create_table] never raises: it returns a boolean, which is
    [False] exactly when the table [person] already exists or the engine
    fails, and [True] otherwise, in which case the empty table has been
    created; on [False] the file is as it was. *)
Theorem create_table_false_iff (w : world) :
  exists (b : bool) (w' : world),
    create_table w = (Return b, w')
    /\ (b = false <-> stored w <> None \/ faulty w = true)
    /\ (b = true <-> stored w = None /\ faulty w = false)
    /\ w' = (if b then World (faulty w) (Some []) else w).
Proof.
  destruct w as [[|] [rs|]];
    eexists; eexists; (split; [reflexivity|]); simpl;
    repeat split; intros; try discriminate; try tauto; try congruence;
    try (left; discriminate); try (now right);
    try (destruct H; congruence).
Qed.

(** C8: [drop_table] is idempotent: with or without a table [person] it
    returns normally, with no value, and leaves no table; called twice
    in a row, the second call returns normally as well. *)
Theorem drop_table_idempotent (d : database) :
  drop_table (healthy d) = (Return tt, healthy None)
  /\ drop_table (healthy None) = (Return tt, healthy None)
  /\ (drop_table ;; drop_table) (healthy d) = (Return tt, healthy None).
Proof. destruct d; repeat split. Qed.

(* ================================================================= *)
(** ** The reads write nothing *)

(** C10: in every state of the world and for every argument, each of
    [fetch_table], [search_lastname_exact], [search_biography_partial]
    and [search_lastname_partial_fullname] leaves the file, schema and
    rows, exactly as it found it, whether it returns or raises. *)
Theorem reads_leave_database_unchanged (w : world) (x : string) :
  snd (fetch_table w) = w
  /\ snd (search_lastname_exact x w) = w
  /\ snd (search_biography_partial x w) = w
  /\ snd (search_lastname_partial_fullname x w) = w.
Proof.
  destruct w as [[|] [rs|]]; try (repeat split; reflexivity).
  fold (healthy (Some rs)).
  now rewrite fetch_table_run, search_lastname_exact_run,
    search_biography_partial_run, search_lastname_partial_fullname_run.
Qed.

(* ================================================================= *)
(** ** Faults of the writing functions *)

Lemma bind6_wrong_length (t : tuple) :
  List.length t <> 6 -> bind6 t = None.
Proof.
  destruct t as [|a [|b [|c [|d [|e [|f [|g t]]]]]]]; simpl; intros H;
    try reflexivity.
  now contradiction H.
Qed.

(** X1: [insert_table] with a tuple that has not exactly six values
    raises ProgrammingError; nothing is committed, the table keeps the
    rows it had. *)
Theorem insert_table_wrong_arity (person : tuple) (rs : list row) :
  List.length person <> 6 ->
  insert_table person (healthy (Some rs))
  = (Raise ProgrammingError, healthy (Some rs)).
Proof.
  intros H. unfold insert_table, def, bind, healthy. simpl.
  now rewrite (bind6_wrong_length person H).
Qed.

Lemma insert_table_wrong_arity_witness :
  List.length ["Neo"; "ThomasAnderson@gmail.com"; "Thomas"] <> 6
  /\ insert_table ["Neo"; "ThomasAnderson@gmail.com"; "Thomas"]
       (healthy (Some []))
     = (Raise ProgrammingError, healthy (Some [])).
Proof.
  split; [simpl; lia|].
  apply (insert_table_wrong_arity
           ["Neo"; "ThomasAnderson@gmail.com"; "Thomas"] []).
  simpl; lia.
Defined.

(** X2: without a table [person], [insert_table] (whatever tuple it is
    given) and [populate_table] raise OperationalError, and no table
    appears. *)
Theorem writes_need_the_table (person : tuple) :
  insert_table person (healthy None) = (Raise OperationalError, healthy None)
  /\ populate_table (healthy None)
     = (Raise OperationalError, healthy None).
Proof. split; reflexivity. Qed.

(** X3: without a table [person], each of the three searches raises
    OperationalError for every argument, as [fetch_table] does; none of
    them answers "no match". *)
Theorem searches_need_the_table (x : string) :
  search_lastname_exact x (healthy None)
  = (Raise OperationalError, healthy None)
  /\ search_biography_partial x (healthy None)
     = (Raise OperationalError, healthy None)
  /\ search_lastname_partial_fullname x (healthy None)
     = (Raise OperationalError, healthy None).
Proof. repeat split. Qed.

(** X4: only [create_table] catches.  When the engine fails, every
    other function of the script, and [main] with them, raises the
    engine's error to its caller and leaves the file as it is. *)
Theorem engine_failure_propagates (d : database) (person : tuple)
  (x : string) :
  let w := World true d in
  drop_table w = (Raise OperationalError, w)
  /\ insert_table person w = (Raise OperationalError, w)
  /\ populate_table w = (Raise OperationalError, w)
  /\ fetch_table w = (Raise OperationalError, w)
  /\ search_lastname_exact x w = (Raise OperationalError, w)
  /\ search_biography_partial x w = (Raise OperationalError, w)
  /\ search_lastname_partial_fullname x w = (Raise OperationalError, w)
  /\ main w = (Raise OperationalError, w).
Proof. repeat split. Qed.

(* ================================================================= *)
(** ** Creating, dropping and fetching together *)

(** X5: whatever the file holds, [drop_table] followed by
    [create_table] gives an empty table: [create_table] answers [True]
    and [fetch_table] returns the empty list. *)
Theorem drop_create_gives_empty_table (d : database) :
  (drop_table ;;
   created <- create_table ;;
   items <- fetch_table ;;
   ret (created, items)) (healthy d)
  = (Return (true, []), healthy (Some [])).
Proof. destruct d; reflexivity. Qed.

(** X6: [create_table] called twice in a row answers [False] the second
    time, in every world, and the second call changes nothing: the rows
    of an existing table are never wiped by it. *)
Theorem create_table_twice (w : world) :
  exists (b : bool) (w' : world),
    create_table w = (Return b, w')
    /\ create_table w' = (Return false, w')
    /\ (create_table ;; create_table) w = (Return false, w').
Proof.
  destruct w as [[|] [rs|]]; eexists; eexists; repeat split.
Qed.

(* ================================================================= *)
(** ** Inserting and looking up *)

(** X7: a look-up by lastname after an insertion.  The row inserted
    last is found only when no older row has the lastname searched: an
    older match stays the answer, a new row with that lastname becomes
    the answer when there was none, and a row with another lastname
    changes nothing. *)
Theorem insert_then_search_exact (x u e f l b o : string) (rs : list row) :
  exists (before : option tuple) (w : world),
    search_lastname_exact x (healthy (Some rs))
    = (Return [before], healthy (Some rs))
    /\ insert_table [u; e; f; l; b; o] (healthy (Some rs)) = (Return tt, w)
    /\ search_lastname_exact x w
       = (Return [match before with
                  | Some t => Some t
                  | None => if String.eqb l x
                            then Some [u; e; f; l; b; o] else None
                  end], w).
Proof.
  rewrite insert_table_run, search_lastname_exact_run.
  eexists. eexists. split; [reflexivity|]. split; [reflexivity|].
  rewrite search_lastname_exact_run, filter_app. simpl.
  destruct (filter _ rs) as [|r0 hits]; simpl; [|reflexivity].
  now destruct (String.eqb l x).
Qed.

Lemma count_occ_single (t : tuple) : count_occ tuple_eq_dec [t] t = 1.
Proof.
  rewrite (count_occ_cons_eq tuple_eq_dec [] (eq_refl t)).
  reflexivity.
Qed.

(** X8: the table has no uniqueness constraint.  Inserting the same
    tuple twice stores two copies: [fetch_table] then returns it twice
    more than before. *)
Theorem insert_twice_keeps_both (u e f l b o : string) (rs : list row) :
  let t := [u; e; f; l; b; o] in
  exists (before after : list tuple) (w : world),
    fetch_table (healthy (Some rs)) = (Return before, healthy (Some rs))
    /\ (insert_table t ;; insert_table t) (healthy (Some rs))
       = (Return tt, w)
    /\ fetch_table w = (Return after, w)
    /\ count_occ tuple_eq_dec after t
       = 2 + count_occ tuple_eq_dec before t.
Proof.
  intros t. rewrite fetch_table_run.
  exists (map columns (order_by lastname rs)).
  exists (map columns
            (order_by lastname
               ((rs ++ [Person u e f l b o]) ++ [Person u e f l b o]))).
  eexists. split; [reflexivity|]. split; [reflexivity|].
  split; [apply fetch_table_run|].
  rewrite <- (proj1 (Permutation_count_occ tuple_eq_dec _ _)
                (Permutation_map columns
                   (order_by_perm lastname
                      ((rs ++ [Person u e f l b o])
                         ++ [Person u e f l b o])))).
  rewrite <- (proj1 (Permutation_count_occ tuple_eq_dec _ _)
                (Permutation_map columns (order_by_perm lastname rs))).
  rewrite !map_app, !count_occ_app. subst t.
  change (map columns [Person u e f l b o])
    with (@cons tuple [u; e; f; l; b; o] (@nil tuple)).
  rewrite count_occ_single. lia.
Qed.

(** X9: the searches return stored rows only.  What
    [search_lastname_exact] and [search_biography_partial] find is one
    of the tuples [fetch_table] returns (with the lastname asked for, in
    the exact search), and every pair [search_lastname_partial_fullname]
    returns is the firstname and lastname of such a tuple. *)
Theorem searches_return_fetched_rows (x : string) (rs : list row) :
  exists all : list tuple,
    fetch_table (healthy (Some rs)) = (Return all, healthy (Some rs))
    /\ (forall t,
          fst (search_lastname_exact x (healthy (Some rs)))
          = Return [Some t] -> In t all /\ column 3 t = x)
    /\ (forall t,
          fst (search_biography_partial x (healthy (Some rs)))
          = Return (Some t) -> In t all)
    /\ (forall values pair,
          fst (search_lastname_partial_fullname x (healthy (Some rs)))
          = Return values ->
          In pair values ->
          exists t, In t all /\ pair = [column 2 t; column 3 t]).
Proof.
  rewrite fetch_table_run, search_lastname_exact_run,
    search_biography_partial_run, search_lastname_partial_fullname_run.
  eexists. split; [reflexivity|].
  assert (Hall : forall r, In r rs ->
                   In (columns r) (map columns (order_by lastname rs))).
  { intros r Hr. apply in_map.
    exact (Permutation_in _ (order_by_perm lastname rs) Hr). }
  assert (Hhd : forall (g : row -> bool) t,
             hd_error (map columns (filter g rs)) = Some t ->
             exists r, In r rs /\ g r = true /\ t = columns r).
  { intros g t Ht.
    pose proof (first_match g rs) as H. rewrite Ht in H.
    destruct H as (pre & r & post & -> & -> & Hr & _).
    exists r. repeat split; auto. apply in_or_app. right. now left. }
  simpl. split; [|split].
  - intros t Ht. injection Ht as Ht.
    destruct (Hhd _ _ Ht) as (r & Hin & Hr & ->).
    split; [now apply Hall|]. now apply String.eqb_eq in Hr.
  - intros t Ht. injection Ht as Ht.
    destruct (Hhd _ _ Ht) as (r & Hin & _ & ->). now apply Hall.
  - intros values pair Hv Hp. injection Hv as <-.
    apply in_map_iff in Hp as (r & <- & Hr).
    apply (Permutation_in _ (Permutation_sym (order_by_perm firstname _)))
      in Hr.
    apply filter_In in Hr as [Hin _].
    exists (columns r). split; [now apply Hall | reflexivity].
Qed.

(* ================================================================= *)
(** ** Keywords of the partial searches *)

Lemma filter_all (f : row -> bool) (rs : list row) :
  (forall r, f r = true) -> filter f rs = rs.
Proof.
  intros H. induction rs as [|r rs IH]; simpl; [reflexivity|].
  now rewrite H, IH.
Qed.

Lemma like_everything (s : string) :
  like ("%" ++ EmptyString ++ "%")%string s = true.
Proof.
  rewrite like_wrapped by reflexivity. now destruct s.
Qed.

(** X10: the empty keyword matches every row.  With it
    [search_biography_partial] returns the first stored row ([None] on
    an empty table) and [search_lastname_partial_fullname] returns the
    name pair of every stored row, sorted by firstname. *)
Theorem empty_keyword_matches_all (rs : list row) :
  search_biography_partial EmptyString (healthy (Some rs))
  = (Return (hd_error (map columns rs)), healthy (Some rs))
  /\ exists values : list tuple,
       search_lastname_partial_fullname EmptyString (healthy (Some rs))
       = (Return values, healthy (Some rs))
       /\ Permutation (map names rs) values
       /\ StronglySorted (by_column 0) values.
Proof.
  rewrite search_biography_partial_run,
    search_lastname_partial_fullname_run.
  rewrite !filter_all by (intros r; apply like_everything).
  split; [reflexivity|]. eexists. split; [reflexivity|]. split.
  - apply Permutation_map, order_by_perm.
  - apply StronglySorted_map. exact (order_by_sorted firstname rs).
Qed.

Lemma tolower_eqb_percent (c : ascii) :
  Ascii.eqb (tolower c) percent = Ascii.eqb c percent.
Proof.
  destruct c as [[] [] [] [] [] [] [] []]; reflexivity.
Qed.

Lemma tolower_eqb_underscore (c : ascii) :
  Ascii.eqb (tolower c) underscore = Ascii.eqb c underscore.
Proof.
  destruct c as [[] [] [] [] [] [] [] []]; reflexivity.
Qed.

Lemma lower_append (a b : string) :
  lower (a ++ b) = (lower a ++ lower b)%string.
Proof.
  induction a as [|c a IH]; simpl; [reflexivity|]. now rewrite IH.
Qed.

(** LIKE does not see the letter case of its pattern. *)
Lemma like_lower_pattern (p p' s : string) :
  lower p = lower p' -> like p s = like p' s.
Proof.
  revert p' s. induction p as [|c p IH]; intros [|c' p'] s H;
    try discriminate H; [reflexivity|].
  simpl in H. injection H as Hc Hp.
  assert (Hpc : Ascii.eqb c percent = Ascii.eqb c' percent).
  { now rewrite <- (tolower_eqb_percent c), <- (tolower_eqb_percent c'), Hc. }
  assert (Huc : Ascii.eqb c underscore = Ascii.eqb c' underscore).
  { now rewrite <- (tolower_eqb_underscore c),
      <- (tolower_eqb_underscore c'), Hc. }
  destruct (Ascii.eqb c percent) eqn:E1.
  - symmetry in Hpc. apply Ascii.eqb_eq in E1, Hpc. subst c c'.
    induction s as [|d s IHs];
      rewrite (like_percent p), (like_percent p'), (IH p' _ Hp).
    + reflexivity.
    + now rewrite IHs.
  - simpl. rewrite E1, <- Hpc, <- Huc.
    destruct (Ascii.eqb c underscore); destruct s as [|d s];
      try reflexivity.
    + now apply IH.
    + unfold eqb_nocase. rewrite Hc. f_equal. now apply IH.
Qed.

(** X11: the partial searches do not see the letter case (A to Z) of
    their keyword: two keywords that differ in case only give the same
    result and the same final state, in every world. *)
Theorem partial_searches_ignore_keyword_case (k k' : string) (w : world) :
  lower k = lower k' ->
  search_biography_partial k w = search_biography_partial k' w
  /\ search_lastname_partial_fullname k w
     = search_lastname_partial_fullname k' w.
Proof.
  intros H.
  assert (Hp : lower ("%" ++ k ++ "%") = lower ("%" ++ k' ++ "%")).
  { now rewrite !lower_append, H. }
  destruct w as [[|] [rs|]]; try (split; reflexivity).
  fold (healthy (Some rs)).
  rewrite !search_biography_partial_run,
    !search_lastname_partial_fullname_run.
  rewrite (filter_ext
             (fun r => like ("%" ++ k ++ "%")%string (biography r))
             (fun r => like ("%" ++ k' ++ "%")%string (biography r)))
    by (intros r; now apply like_lower_pattern).
  rewrite (filter_ext
             (fun r => like ("%" ++ k ++ "%")%string (lastname r))
             (fun r => like ("%" ++ k' ++ "%")%string (lastname r)))
    by (intros r; now apply like_lower_pattern).
  split; reflexivity.
Qed.

Lemma partial_searches_ignore_keyword_case_witness :
  lower "ENG" = lower "eng"
  /\ search_biography_partial "ENG" (healthy (Some []))
     = search_biography_partial "eng" (healthy (Some []))
  /\ search_lastname_partial_fullname "ENG" (healthy (Some []))
     = search_lastname_partial_fullname "eng" (healthy (Some [])).
Proof.
  split; [reflexivity|].
  apply (partial_searches_ignore_keyword_case "ENG" "eng"). reflexivity.
Defined.

(* ================================================================= *)
(** ** Running the driver again *)

(** X12: [main] can be run again and again.  Whatever the file held, it
    ends with the same four rows stored and has printed the same things:
    the row of Joey Shmo for the exact search, the row of Janey Doe for
    the biography search with "eng", and for the lastname search with
    "s" the pairs John Smith, Joseph Shmo, Thomas Anderson, in this
    order.  So a second run prints what the first did. *)
Theorem main_runs_again (d : database) :
  main (healthy d) = main (healthy None)
  /\ (main ;; main) (healthy d) = main (healthy d)
  /\ exists (p : printed) (w : world),
       main (healthy d) = (Return (Some p), w)
       /\ option_map (map columns) (stored w) = Some (neo :: people)
       /\ lastname_match p = [Some (nth 1 people [])]
       /\ biography_match p = Some (nth 0 people [])
       /\ name_matches p
          = [["John"; "Smith"]; ["Joseph"; "Shmo"]; ["Thomas"; "Anderson"]].
Proof.
  destruct d as [rs|];
    (split; [vm_compute; reflexivity|]);
    (split; [vm_compute; reflexivity|]);
    eexists; eexists; (split; [vm_compute; reflexivity|]);
    repeat split.
Qed.

(* ================================================================= *)
(** ** What an insertion adds *)

(** X13: [insert_table] adds one row and touches no other: what
    [fetch_table] returns afterwards is, up to order, the inserted tuple
    together with what it returned before. *)
Theorem insert_adds_one_row (u e f l b o : string) (rs : list row) :
  exists (before after : list tuple) (w : world),
    fetch_table (healthy (Some rs)) = (Return before, healthy (Some rs))
    /\ insert_table [u; e; f; l; b; o] (healthy (Some rs)) = (Return tt, w)
    /\ fetch_table w = (Return after, w)
    /\ Permutation ([u; e; f; l; b; o] :: before) after.
Proof.
  rewrite fetch_table_run, insert_table_run.
  eexists. eexists. eexists.
  split; [reflexivity|]. split; [reflexivity|].
  split; [apply fetch_table_run|].
  change [u; e; f; l; b; o] with (columns (Person u e f l b o)).
  rewrite <- map_cons. apply Permutation_map.
  rewrite <- (order_by_perm lastname (rs ++ [Person u e f l b o])).
  rewrite <- (order_by_perm lastname rs).
  apply Permutation_cons_append.
Qed.

(* ================================================================= *)
(** ** Wildcards typed as keywords *)



